(** * ringbuffer.h: a fixed-capacity circular queue of entry references

    Shallow embedding of the inline functions of [ringbuffer.h] and the
    properties of its specification.

    Modelling conventions.
    - An [OPPLE_QUEUE *] (the reference kept in a slot) is an integer; the
      queue never dereferences it.
    - An [OPPLE_QUEUE **] (the cursors [in], [out] and the bounds [start],
      [end]) is an integer address counted in slots, so that [++ p] is
      [p + 1] and [&dataptr[size]] is [dataptr + size].
    - The slot memory is a total map from slot addresses to references.  It
      is disjoint from the [ringbuffer_t] structure itself.  A load or store
      outside the caller's array is, in C, undefined; the model performs it
      on the flat memory.  [cursors_inside] shows that under the documented
      usage every access stays inside the array.
    - [uint16_t] fields are integers in [0, 65536); the increments and
      the subtraction of the source are reduced modulo 65536 ([u16]).
    - The [uint8_t] result of a C comparison is a [bool].
    - The [printf] of [ringbuffer_insert] appends the pair it prints to a
      console log. *)

From Stdlib Require Import ZArith List Bool Lia.
Import ListNotations.
Local Open Scope Z_scope.

(** ** Data *)

Definition ptr := Z.
Definition slot_addr := Z.

Definition u16 (z : Z) : Z := z mod 65536.
Definition is_uint16 (z : Z) : Prop := 0 <= z < 65536.

(** [ringbuffer_t]; [in] and [end] are reserved words, hence the underscore. *)
Record ringbuffer_t : Type := mk_ringbuffer {
  in_   : slot_addr;
  out   : slot_addr;
  start : slot_addr;
  end_  : slot_addr;
  size  : Z;
  sount : Z
}.

Definition memory := slot_addr -> ptr.

Definition mem_store (m : memory) (a : slot_addr) (v : ptr) : memory :=
  fun x => if x =? a then v else m x.

Record world : Type := mk_world {
  buffer  : ringbuffer_t;
  slots   : memory;
  console : list (slot_addr * slot_addr)
}.

(** ** A state monad over [world] *)

Definition M (A : Type) : Type := world -> A * world.

Definition ret {A} (a : A) : M A := fun w => (a, w).
Definition bind {A B} (m : M A) (k : A -> M B) : M B :=
  fun w => let (a, w') := m w in k a w'.

Declare Scope rb_scope.
Delimit Scope rb_scope with rb.
Notation "x <- m ;; k" := (bind m (fun x => k))
  (at level 61, m at next level, right associativity) : rb_scope.
Notation "m ;; k" := (bind m (fun _ => k))
  (at level 61, right associativity) : rb_scope.
Local Open Scope rb_scope.

Definition field {A} (f : ringbuffer_t -> A) : M A :=
  fun w => (f (buffer w), w).
Definition modify (f : ringbuffer_t -> ringbuffer_t) : M unit :=
  fun w => (tt, mk_world (f (buffer w)) (slots w) (console w)).
Definition load (a : slot_addr) : M ptr :=
  fun w => (slots w a, w).
Definition store (a : slot_addr) (v : ptr) : M unit :=
  fun w => (tt, mk_world (buffer w) (mem_store (slots w) a v) (console w)).
Definition printf (a b : slot_addr) : M unit :=
  fun w => (tt, mk_world (buffer w) (slots w) (console w ++ [(a, b)])).

Definition set_in (v : slot_addr) : M unit :=
  modify (fun b => mk_ringbuffer v (out b) (start b) (end_ b) (size b) (sount b)).
Definition set_out (v : slot_addr) : M unit :=
  modify (fun b => mk_ringbuffer (in_ b) v (start b) (end_ b) (size b) (sount b)).
Definition set_start (v : slot_addr) : M unit :=
  modify (fun b => mk_ringbuffer (in_ b) (out b) v (end_ b) (size b) (sount b)).
Definition set_end (v : slot_addr) : M unit :=
  modify (fun b => mk_ringbuffer (in_ b) (out b) (start b) v (size b) (sount b)).
Definition set_size (v : Z) : M unit :=
  modify (fun b => mk_ringbuffer (in_ b) (out b) (start b) (end_ b) v (sount b)).
Definition set_sount (v : Z) : M unit :=
  modify (fun b => mk_ringbuffer (in_ b) (out b) (start b) (end_ b) (size b) v).

(** ** The functions of [ringbuffer.h] *)

(** [size] is a [uint16_t] parameter: callers pass a value with
    [is_uint16 size]. *)
Definition ringbuffer_init (dataptr : slot_addr) (size : Z) : M unit :=
  set_in dataptr ;;
  set_out dataptr ;;
  set_start dataptr ;;
  set_end (dataptr + size) ;;
  set_size size ;;
  set_sount 0.

Definition ringbuffer_get_count : M Z :=
  sount <- field sount ;;
  ret sount.

Definition ringbuffer_get_free_count : M Z :=
  sz <- field size ;;
  c <- ringbuffer_get_count ;;
  ret (u16 (sz - c)).

Definition ringbuffer_is_empty : M bool :=
  c <- ringbuffer_get_count ;;
  ret (c =? 0).

Definition ringbuffer_is_full : M bool :=
  c <- ringbuffer_get_count ;;
  sz <- field size ;;
  ret (c =? sz).

Definition ringbuffer_insert (Data : ptr) : M unit :=
  i <- field in_ ;;
  store i Data ;;
  e <- field end_ ;;
  printf i e ;;
  set_in (i + 1) ;;
  i' <- field in_ ;;
  e <- field end_ ;;
  (if i' =? e then s <- field start ;; set_in s else ret tt) ;;
  c <- field sount ;;
  set_sount (u16 (c + 1)).

Definition ringbuffer_remove : M ptr :=
  o <- field out ;;
  Data <- load o ;;
  set_out (o + 1) ;;
  o' <- field out ;;
  e <- field end_ ;;
  (if o' =? e then s <- field start ;; set_out s else ret tt) ;;
  c <- field sount ;;
  set_sount (u16 (c - 1)) ;;
  ret Data.

Definition ringbuffer_peek : M ptr :=
  o <- field out ;;
  load o.

(** Observations on a world: the value a call returns there. *)
Definition count (w : world) : Z := fst (ringbuffer_get_count w).
Definition freeCount (w : world) : Z := fst (ringbuffer_get_free_count w).
Definition isEmpty (w : world) : bool := fst (ringbuffer_is_empty w).
Definition isFull (w : world) : bool := fst (ringbuffer_is_full w).
Definition peek (w : world) : ptr := fst (ringbuffer_peek w).
Definition init (dataptr : slot_addr) (n : Z) (w : world) : world :=
  snd (ringbuffer_init dataptr n w).
Definition insert (Data : ptr) (w : world) : world :=
  snd (ringbuffer_insert Data w).
Definition remove (w : world) : ptr * world := ringbuffer_remove w.

(** ** Call sequences that respect the documented preconditions *)

Inductive call : Type :=
| Insert (Data : ptr)
| Remove
| Peek.

(** [run w cs] performs the calls [cs] from [w], checking [!isFull] before
    every insert and [!isEmpty] before every remove, as the caller must.  It
    yields the final world and the references returned by the remove calls,
    oldest first, or [None] when a precondition is violated. *)
Fixpoint run (w : world) (cs : list call) : option (world * list ptr) :=
  match cs with
  | [] => Some (w, [])
  | Insert Data :: cs' =>
      if isFull w then None else run (insert Data w) cs'
  | Remove :: cs' =>
      if isEmpty w then None
      else let (d, w') := remove w in
           match run w' cs' with
           | Some (w'', ds) => Some (w'', d :: ds)
           | None => None
           end
  | Peek :: cs' => run (snd (ringbuffer_peek w)) cs'
  end.

Fixpoint inserted (cs : list call) : list ptr :=
  match cs with
  | [] => []
  | Insert Data :: cs' => Data :: inserted cs'
  | _ :: cs' => inserted cs'
  end.

Fixpoint removals (cs : list call) : nat :=
  match cs with
  | [] => O
  | Remove :: cs' => S (removals cs')
  | _ :: cs' => removals cs'
  end.

(** [insert_all ds w]: one insert call per element of [ds], in order, with
    no check and no other call in between. *)
Definition insert_all (ds : list ptr) (w : world) : world :=
  fold_left (fun w' d => insert d w') ds w.

(** The slot index of a cursor, relative to the start of the array. *)
Definition write_index (w : world) : Z := in_ (buffer w) - start (buffer w).
Definition read_index (w : world) : Z := out (buffer w) - start (buffer w).

(** The cursor after [++ p] and the comparison with [end]. *)
Definition next (b : ringbuffer_t) (p : slot_addr) : slot_addr :=
  if p + 1 =? end_ b then start b else p + 1.

(** ** The queue a world represents *)

Definition wrap (n x : Z) : Z := if x <? n then x else x - n.

(** [rep dataptr n q w]: the buffer of [w] is bound to the [n] slots at
    [dataptr] and holds the references [q], oldest first, from the read
    cursor on, wrapping at the end of the array. *)
Record rep (dataptr n : Z) (q : list ptr) (w : world) : Prop := mk_rep {
  rep_start : start (buffer w) = dataptr;
  rep_end   : end_ (buffer w) = dataptr + n;
  rep_size  : size (buffer w) = n;
  rep_count : sount (buffer w) = Z.of_nat (length q);
  rep_room  : Z.of_nat (length q) <= n;
  rep_out   : 0 <= read_index w < Z.max 1 n;
  rep_in    : write_index w = wrap n (read_index w + Z.of_nat (length q));
  rep_slots : forall j, (j < length q)%nat ->
              slots w (dataptr + wrap n (read_index w + Z.of_nat j)) = nth j q 0
}.

Ltac fields := cbn [buffer slots console in_ out start end_ size sount] in *.

Ltac wrap_cases :=
  unfold wrap, next, write_index, read_index in *; fields;
  repeat match goal with
    | |- context [?a <? ?b] => destruct (Z.ltb_spec a b)
    | |- context [?a =? ?b] => destruct (Z.eqb_spec a b)
    | H : context [?a <? ?b] |- _ => destruct (Z.ltb_spec a b)
    | H : context [?a =? ?b] |- _ => destruct (Z.eqb_spec a b)
    end;
  try lia.

(** ** The invariants of the data model *)

(** The occupancy counter lies between 0 and the capacity and equals the
    number of entries inserted by [cs] minus the number removed. *)
Definition counter_invariant (cs : list call) (w : world) : Prop :=
  0 <= count w <= size (buffer w) /\
  count w = Z.of_nat (length (inserted cs)) - Z.of_nat (removals cs).

(** Both cursors lie within [0, capacity). *)
Definition cursor_invariant (w : world) : Prop :=
  0 <= write_index w < size (buffer w) /\
  0 <= read_index w < size (buffer w).

(** A buffer bound to the [n] slots at [dataptr], its cursors given by their
    slot index. *)
Definition indexed (dataptr n i o c : Z) (m : memory)
    (l : list (slot_addr * slot_addr)) : world :=
  mk_world (mk_ringbuffer (dataptr + i) (dataptr + o) dataptr (dataptr + n) n c)
           m l.

(** A world to start examples from: nothing bound, every slot null. *)
Definition blank : world :=
  mk_world (mk_ringbuffer 0 0 0 0 0 0) (fun _ => 0) [].

(** [w'] has the capacity of [w] and is bound to the same storage array. *)
Definition same_binding (w w' : world) : Prop :=
  size (buffer w') = size (buffer w) /\
  start (buffer w') = start (buffer w) /\
  end_ (buffer w') = end_ (buffer w).

(** A buffer of the largest capacity, filled by 65535 inserts. *)
Definition full_65535 : world :=
  insert_all (repeat 7 (Z.to_nat 65535)) (init 0 65535 blank).

(** A call sequence for a buffer of two slots that wraps both cursors. *)
Definition demo_calls : list call :=
  [Insert 10; Insert 20; Remove; Insert 30; Peek; Remove; Remove].

(** ** Calls made without checking the preconditions *)

(** [remove_n k w]: [k] remove calls in a row with no check in between, the
    loop the header recommends after reading the count once. *)
Fixpoint remove_n (k : nat) (w : world) : list ptr * world :=
  match k with
  | O => ([], w)
  | S k' =>
      let (d, w') := remove w in
      let (ds, w'') := remove_n k' w' in
      (d :: ds, w'')
  end.

(** [run_unchecked w cs] performs the calls [cs] from [w] whatever the state
    of the buffer, and yields the final world and the references returned by
    the remove calls. *)
Fixpoint run_unchecked (w : world) (cs : list call) : world * list ptr :=
  match cs with
  | [] => (w, [])
  | Insert Data :: cs' => run_unchecked (insert Data w) cs'
  | Remove :: cs' =>
      let (d, w') := remove w in
      let (w'', ds) := run_unchecked w' cs' in
      (w'', d :: ds)
  | Peek :: cs' => run_unchecked (snd (ringbuffer_peek w)) cs'
  end.

(** Both cursors point into the array between [start] and [end]. *)
Definition in_array (w : world) : Prop :=
  start (buffer w) <= in_ (buffer w) < end_ (buffer w) /\
  start (buffer w) <= out (buffer w) < end_ (buffer w).

(** The references inserted by [cs] and not removed by it, oldest first. *)
Definition pending (cs : list call) : list ptr :=
  skipn (removals cs) (inserted cs).

(** A call sequence for a buffer of two slots that leaves two references
    pending, the write cursor having wrapped. *)
Definition demo_prefix : list call := [Insert 10; Insert 20; Remove; Insert 30].

(** ** The effect of each call, in closed form *)

Lemma init_eq dataptr n w :
  init dataptr n w =
  mk_world (mk_ringbuffer dataptr dataptr dataptr (dataptr + n) n 0)
           (slots w) (console w).
Proof. reflexivity. Qed.

Lemma insert_eq d w :
  insert d w =
  let b := buffer w in
  mk_world (mk_ringbuffer (next b (in_ b)) (out b) (start b) (end_ b)
                          (size b) (u16 (sount b + 1)))
           (mem_store (slots w) (in_ b) d)
           (console w ++ [(in_ b, end_ b)]).
Proof.
  destruct w as [[i o s e n c] m l].
  unfold insert, ringbuffer_insert, next, bind, field, store, printf, set_in,
    set_sount, modify, ret; cbn.
  destruct (i + 1 =? e); reflexivity.
Qed.

Lemma remove_eq w :
  remove w =
  let b := buffer w in
  (slots w (out b),
   mk_world (mk_ringbuffer (in_ b) (next b (out b)) (start b) (end_ b)
                           (size b) (u16 (sount b - 1)))
            (slots w) (console w)).
Proof.
  destruct w as [[i o s e n c] m l].
  unfold remove, ringbuffer_remove, next, bind, field, load, set_out,
    set_sount, modify, ret; cbn.
  destruct (o + 1 =? e); reflexivity.
Qed.

Lemma peek_eq w : ringbuffer_peek w = (slots w (out (buffer w)), w).
Proof. reflexivity. Qed.

Lemma count_eq w : count w = sount (buffer w).
Proof. reflexivity. Qed.

Lemma freeCount_eq w : freeCount w = u16 (size (buffer w) - sount (buffer w)).
Proof. reflexivity. Qed.

Lemma isEmpty_eq w : isEmpty w = (sount (buffer w) =? 0).
Proof. reflexivity. Qed.

Lemma isFull_eq w : isFull w = (sount (buffer w) =? size (buffer w)).
Proof. reflexivity. Qed.

Lemma u16_small z : 0 <= z < 65536 -> u16 z = z.
Proof. intros H. unfold u16. apply Z.mod_small. exact H. Qed.

Lemma mem_store_same m a v : mem_store m a v a = v.
Proof. unfold mem_store. rewrite Z.eqb_refl. reflexivity. Qed.

Lemma mem_store_other m a v x : x <> a -> mem_store m a v x = m x.
Proof.
  intros H. unfold mem_store.
  destruct (x =? a) eqn:E; [apply Z.eqb_eq in E; contradiction | reflexivity].
Qed.

(** ** Each call keeps the representation *)

Lemma rep_init dataptr n w : 0 <= n -> rep dataptr n [] (init dataptr n w).
Proof.
  intros Hn. rewrite init_eq.
  constructor; unfold read_index, write_index; cbn;
    try reflexivity; try lia; try wrap_cases.
Qed.

Lemma rep_insert dataptr n q w d :
  is_uint16 n -> rep dataptr n q w -> isFull w = false ->
  rep dataptr n (q ++ [d]) (insert d w).
Proof.
  intros Hn [Hs He Hz Hc Hr Ho Hi Hm] Hf.
  rewrite isFull_eq in Hf. apply Z.eqb_neq in Hf.
  rewrite insert_eq. destruct w as [[i o s e z c] m l].
  unfold read_index, write_index, is_uint16 in *. cbn in *. subst s e z c.
  assert (Hlen : Z.of_nat (length (q ++ [d])) = Z.of_nat (length q) + 1)
    by (rewrite length_app; cbn; lia).
  constructor; unfold read_index, write_index; cbn; try reflexivity.
  - rewrite Hlen. apply u16_small. lia.
  - lia.
  - exact Ho.
  - rewrite Hlen. wrap_cases.
  - intros j Hj. rewrite length_app in Hj. cbn in Hj.
    destruct (Nat.eq_dec j (length q)) as [->|Hne].
    + rewrite nth_middle.
      replace (dataptr + wrap n (o - dataptr + Z.of_nat (length q)))
        with i by wrap_cases.
      apply mem_store_same.
    + rewrite app_nth1 by lia.
      rewrite mem_store_other.
      * apply (Hm j). lia.
      * assert (Z.of_nat j < Z.of_nat (length q)) by lia. wrap_cases.
Qed.

Lemma rep_remove dataptr n q w :
  is_uint16 n -> rep dataptr n q w -> isEmpty w = false ->
  exists d q', q = d :: q' /\ fst (remove w) = d /\
               rep dataptr n q' (snd (remove w)).
Proof.
  intros Hn [Hs He Hz Hc Hr Ho Hi Hm] Hf.
  rewrite isEmpty_eq in Hf. apply Z.eqb_neq in Hf.
  rewrite remove_eq. destruct w as [[i o s e z c] m l].
  unfold read_index, write_index, is_uint16 in *. fields. subst s e z c.
  destruct q as [|d q']; [cbn in Hf; lia|].
  exists d, q'.
  assert (Hlen : Z.of_nat (length (d :: q')) = Z.of_nat (length q') + 1)
    by (cbn [length]; lia).
  rewrite Hlen in *.
  split; [reflexivity|]. split.
  - cbn [fst]. fields.
    assert (H0 := Hm O ltac:(cbn [length]; lia)). cbn [nth] in H0.
    rewrite <- H0. f_equal. change (Z.of_nat 0) with 0. wrap_cases.
  - cbn [snd]. constructor; unfold read_index, write_index; fields;
      try reflexivity.
    + rewrite u16_small by lia. lia.
    + lia.
    + wrap_cases.
    + rewrite Hi. wrap_cases.
    + intros j Hj.
      change (nth j q' 0) with (nth (S j) (d :: q') 0).
      rewrite <- (Hm (S j)) by (cbn [length]; lia).
      f_equal. f_equal.
      assert (Z.of_nat (S j) = Z.of_nat j + 1) by lia.
      assert (Z.of_nat j < Z.of_nat (length q')) by lia.
      wrap_cases.
Qed.

(** A sequence of calls that respects the preconditions keeps [rep], and the
    references it removes are the oldest of the queue followed by the
    inserted ones, in order. *)
Lemma run_rep dataptr n :
  is_uint16 n ->
  forall cs q w w' ds,
    rep dataptr n q w -> run w cs = Some (w', ds) ->
    exists q', rep dataptr n q' w' /\ q ++ inserted cs = ds ++ q' /\
               length ds = removals cs.
Proof.
  intros Hn. induction cs as [|c cs IH]; intros q w w' ds Hrep Hrun.
  - cbn in Hrun. inversion Hrun; subst. exists q. cbn.
    rewrite app_nil_r. auto.
  - destruct c as [d| |]; cbn [run inserted removals] in *.
    + destruct (isFull w) eqn:Hf; [discriminate|].
      destruct (IH _ _ _ _ (rep_insert _ _ _ _ d Hn Hrep Hf) Hrun)
        as (q' & Hq' & Happ & Hlen).
      exists q'. rewrite <- app_assoc in Happ. auto.
    + destruct (isEmpty w) eqn:Hf; [discriminate|].
      destruct (rep_remove _ _ _ _ Hn Hrep Hf) as (d & q0 & -> & Hd & Hq0).
      destruct (remove w) as [d' w1]. cbn in Hd, Hq0. subst d'.
      destruct (run w1 cs) as [[w2 ds']|] eqn:Hrun'; [|discriminate].
      inversion Hrun; subst.
      destruct (IH _ _ _ _ Hq0 Hrun') as (q' & Hq' & Happ & Hlen).
      exists q'. cbn. rewrite Happ, Hlen. auto.
    + rewrite peek_eq in Hrun. cbn in Hrun. eauto.
Qed.

Lemma run_init_rep dataptr n w0 cs w ds :
  is_uint16 n -> run (init dataptr n w0) cs = Some (w, ds) ->
  exists q, rep dataptr n q w /\ inserted cs = ds ++ q /\
            length ds = removals cs.
Proof.
  intros Hn Hrun.
  apply (run_rep dataptr n Hn cs [] _ _ _
           (rep_init dataptr n w0 (proj1 Hn)) Hrun).
Qed.

(** Under the documented usage both cursors stay inside the caller's array,
    so every load and store of the model is one the C program may perform. *)
Lemma cursors_inside dataptr n w0 cs w ds :
  is_uint16 n -> 1 <= n -> run (init dataptr n w0) cs = Some (w, ds) ->
  dataptr <= in_ (buffer w) < dataptr + n /\
  dataptr <= out (buffer w) < dataptr + n.
Proof.
  intros Hn H1 Hrun.
  destruct (run_init_rep _ _ _ _ _ _ Hn Hrun) as (q & [Hs He Hz Hc Hr Ho Hi Hm] & _).
  wrap_cases.
Qed.

(** ** The occupancy counter under unchecked inserts *)

Lemma insert_all_buffer ds : forall w,
  start (buffer (insert_all ds w)) = start (buffer w) /\
  end_ (buffer (insert_all ds w)) = end_ (buffer w) /\
  size (buffer (insert_all ds w)) = size (buffer w) /\
  sount (buffer (insert_all ds w)) =
    match ds with
    | [] => sount (buffer w)
    | _ => u16 (sount (buffer w) + Z.of_nat (length ds))
    end.
Proof.
  induction ds as [|d ds IH]; intros w; [cbn; auto|].
  change (insert_all (d :: ds) w) with (insert_all ds (insert d w)).
  destruct (IH (insert d w)) as (Hs & He & Hz & Hc).
  rewrite Hs, He, Hz, Hc, insert_eq. fields.
  repeat split.
  destruct ds as [|d' ds]; [cbn [length]; f_equal; lia|].
  unfold u16. rewrite Z.add_mod_idemp_l by lia.
  f_equal. cbn [length]. lia.
Qed.

Lemma insert_all_count ds w :
  is_uint16 (sount (buffer w)) ->
  count (insert_all ds w) = u16 (sount (buffer w) + Z.of_nat (length ds)).
Proof.
  intros H. rewrite count_eq.
  destruct (insert_all_buffer ds w) as (_ & _ & _ & Hc). rewrite Hc.
  destruct ds; [|reflexivity].
  cbn [length]. rewrite Z.add_0_r. symmetry. apply u16_small. exact H.
Qed.

(** ** The model on concrete inputs *)

Example run_demo :
  option_map snd (run (init 100 2 blank) demo_calls) = Some [10; 20; 30].
Proof. vm_compute. reflexivity. Qed.

Example run_refuses_insert_when_full :
  run (init 100 2 blank) [Insert 1; Insert 2; Insert 3] = None.
Proof. vm_compute. reflexivity. Qed.

Example run_refuses_remove_when_empty :
  run (init 100 2 blank) [Insert 1; Remove; Remove] = None.
Proof. vm_compute. reflexivity. Qed.

Example insert_prints_cursor_and_end :
  console (insert 5 (init 100 2 blank)) = [(100, 102)].
Proof. reflexivity. Qed.

(** An insert on a full buffer overwrites the oldest pending reference. *)
Example insert_when_full_overwrites :
  fst (remove (insert_all [1; 2; 3] (init 100 2 blank))) = 3.
Proof. vm_compute. reflexivity. Qed.

(** ** Properties of the specification *)

(** C1 (FIFO order).  For every sequence of insert and remove calls on a
    buffer initialized with a capacity [n], where no insert is made on a full
    buffer and no remove on an empty one, the references returned by the
    remove calls are, in order, the first references inserted: the k-th
    remove returns the k-th inserted reference, the earliest one not yet
    removed.  Every remove of the sequence returns, and no more references
    are removed than were inserted. *)
Theorem remove_fifo_order dataptr n w0 cs w ds :
  is_uint16 n ->
  run (init dataptr n w0) cs = Some (w, ds) ->
  ds = firstn (removals cs) (inserted cs) /\
  length ds = removals cs /\
  (removals cs <= length (inserted cs))%nat.
Proof.
  intros Hn Hrun.
  destruct (run_init_rep _ _ _ _ _ _ Hn Hrun) as (q & _ & Happ & Hlen).
  rewrite Happ, <- Hlen. repeat split.
  - rewrite firstn_app, Nat.sub_diag, firstn_all. cbn. rewrite app_nil_r.
    reflexivity.
  - rewrite length_app. lia.
Qed.

Lemma remove_fifo_order_witness :
  [10; 20; 30] = firstn (removals demo_calls) (inserted demo_calls) /\
  length [10; 20; 30] = removals demo_calls /\
  (removals demo_calls <= length (inserted demo_calls))%nat.
Proof.
  refine (remove_fifo_order 100 2 blank demo_calls _ [10; 20; 30] _ _).
  - unfold is_uint16. lia.
  - vm_compute. reflexivity.
Defined.

(** C2 (count after k inserts).  For every capacity [n >= 1] and every
    [k = length ds] with [0 <= k <= n], after initializing a buffer of
    capacity [n] and performing [k] insert calls with nothing in between,
    count() returns [k] and isFull() returns true exactly when [k = n]. *)
Theorem count_after_inserts dataptr n w0 ds :
  is_uint16 n -> 1 <= n -> Z.of_nat (length ds) <= n ->
  count (insert_all ds (init dataptr n w0)) = Z.of_nat (length ds) /\
  isFull (insert_all ds (init dataptr n w0)) = (Z.of_nat (length ds) =? n).
Proof.
  intros Hn H1 Hk. unfold is_uint16 in Hn.
  assert (Hc : count (insert_all ds (init dataptr n w0)) = Z.of_nat (length ds)).
  { rewrite insert_all_count by (rewrite init_eq; unfold is_uint16; cbn; lia).
    rewrite init_eq. fields. apply u16_small. lia. }
  split; [exact Hc|].
  rewrite isFull_eq, <- count_eq, Hc.
  destruct (insert_all_buffer ds (init dataptr n w0)) as (_ & _ & Hz & _).
  rewrite Hz, init_eq. reflexivity.
Qed.

Lemma count_after_inserts_witness :
  count (insert_all [10; 20; 30] (init 100 3 blank)) = 3 /\
  isFull (insert_all [10; 20; 30] (init 100 3 blank)) = true.
Proof.
  apply (count_after_inserts 100 3 blank [10; 20; 30]).
  - unfold is_uint16. lia.
  - lia.
  - cbn. lia.
Defined.

(** The calls on a buffer in [indexed] form. *)
Lemma init_indexed dataptr n w :
  init dataptr n w = indexed dataptr n 0 0 0 (slots w) (console w).
Proof. rewrite init_eq. unfold indexed. rewrite Z.add_0_r. reflexivity. Qed.

Lemma insert_indexed dataptr n i o c m l d :
  insert d (indexed dataptr n i o c m l) =
  indexed dataptr n (if i + 1 =? n then 0 else i + 1) o (u16 (c + 1))
          (mem_store m (dataptr + i) d) (l ++ [(dataptr + i, dataptr + n)]).
Proof.
  rewrite insert_eq. unfold indexed, next. fields.
  destruct (Z.eqb_spec (i + 1) n), (Z.eqb_spec (dataptr + i + 1) (dataptr + n));
    try lia; rewrite ?Z.add_0_r, ?Z.add_assoc; reflexivity.
Qed.

Lemma remove_indexed dataptr n i o c m l :
  remove (indexed dataptr n i o c m l) =
  (m (dataptr + o),
   indexed dataptr n i (if o + 1 =? n then 0 else o + 1) (u16 (c - 1)) m l).
Proof.
  rewrite remove_eq. unfold indexed, next. fields.
  destruct (Z.eqb_spec (o + 1) n), (Z.eqb_spec (dataptr + o + 1) (dataptr + n));
    try lia; rewrite ?Z.add_0_r, ?Z.add_assoc; reflexivity.
Qed.

Lemma mem_store_at m a i j v :
  mem_store m (a + i) v (a + j) = if j =? i then v else m (a + j).
Proof.
  unfold mem_store.
  destruct (Z.eqb_spec (a + j) (a + i)), (Z.eqb_spec j i); try lia; reflexivity.
Qed.

(** C3 (scenario, capacity 3).  From an empty buffer of three slots,
    insert(A); insert(B); insert(C) gives isFull() true and count() 3; a
    remove() returns A and leaves count() 2; insert(D) then stores D in slot 0
    of the array, the write cursor having wrapped; three more remove() calls
    return B, C and D, leaving count() 0 and isEmpty() true. *)
Theorem scenario_capacity_3 dataptr w0 A B C D :
  let w1 := insert C (insert B (insert A (init dataptr 3 w0))) in
  let r1 := fst (remove w1) in
  let w2 := snd (remove w1) in
  let w3 := insert D w2 in
  let r2 := fst (remove w3) in
  let w4 := snd (remove w3) in
  let r3 := fst (remove w4) in
  let w5 := snd (remove w4) in
  let r4 := fst (remove w5) in
  let w6 := snd (remove w5) in
  isEmpty (init dataptr 3 w0) = true /\
  isFull w1 = true /\ count w1 = 3 /\
  r1 = A /\ count w2 = 2 /\
  isFull w2 = false /\ write_index w2 = 0 /\
  slots w3 (start (buffer w3) + 0) = D /\ count w3 = 3 /\
  r2 = B /\ r3 = C /\ r4 = D /\
  count w6 = 0 /\ isEmpty w6 = true.
Proof.
  cbv zeta. rewrite init_indexed.
  repeat (rewrite ?insert_indexed, ?remove_indexed; cbn [fst snd]).
  rewrite ?isFull_eq, ?isEmpty_eq, ?count_eq.
  unfold indexed, write_index. fields.
  rewrite !mem_store_at, Z.add_simpl_l.
  repeat split; vm_compute; reflexivity.
Qed.

(** C4 (free count).  In every state reached from init by insert, remove and
    peek calls that respect the preconditions -- hence right after init and
    after each such call -- the capacity is the one given to init and
    freeCount() equals the capacity minus count(), as integers. *)
Theorem freeCount_capacity_minus_count dataptr n w0 cs w ds :
  is_uint16 n ->
  run (init dataptr n w0) cs = Some (w, ds) ->
  size (buffer w) = n /\
  freeCount w = size (buffer w) - count w.
Proof.
  intros Hn Hrun.
  destruct (run_init_rep _ _ _ _ _ _ Hn Hrun)
    as (q & [Hs He Hz Hc Hr Ho Hi Hm] & _).
  split; [exact Hz|].
  rewrite freeCount_eq, count_eq, Hz, Hc.
  apply u16_small. unfold is_uint16 in Hn. lia.
Qed.

Lemma freeCount_capacity_minus_count_witness :
  exists w, size (buffer w) = 2 /\ freeCount w = size (buffer w) - count w.
Proof.
  eexists.
  refine (freeCount_capacity_minus_count 100 2 blank
            [Insert 10; Peek; Insert 20; Remove] _ [10] _ _).
  - unfold is_uint16. lia.
  - vm_compute. reflexivity.
Defined.

(** C5 (peek is read-only).  In every state, peek() returns the reference in
    the slot at the read cursor and leaves the whole state as it was: count()
    is the same after the peek, and a remove() after the peek returns the
    reference, and produces the state, it would have without the peek. *)
Theorem peek_frame w :
  snd (ringbuffer_peek w) = w /\
  peek w = slots w (out (buffer w)) /\
  count (snd (ringbuffer_peek w)) = count w /\
  remove (snd (ringbuffer_peek w)) = remove w /\
  fst (remove (snd (ringbuffer_peek w))) = peek w.
Proof.
  unfold peek. rewrite peek_eq. cbn [fst snd].
  repeat split. rewrite remove_eq. reflexivity.
Qed.

(** C6, as stated, fails for capacity 2: after a remove on the empty buffer
    isEmpty() and freeCount() are wrong, but isFull() returns false, as it
    did before the call and as is right for a buffer that holds nothing.
    It stays in step afterwards: the first later insert is lost, and isFull()
    becomes true when two references that the removes will return are held. *)
Lemma isFull_not_corrupted_capacity_2 :
  count (init 100 2 blank) = 0 /\
  isEmpty (init 100 2 blank) = true /\
  isFull (init 100 2 blank) = false /\
  count (snd (remove (init 100 2 blank))) = 65535 /\
  isEmpty (snd (remove (init 100 2 blank))) = false /\
  freeCount (snd (remove (init 100 2 blank))) = 3 /\
  isFull (snd (remove (init 100 2 blank))) = isFull (init 100 2 blank) /\
  isFull (insert_all [10] (snd (remove (init 100 2 blank)))) = false /\
  isFull (insert_all [10; 20] (snd (remove (init 100 2 blank)))) = false /\
  isFull (insert_all [10; 20; 30] (snd (remove (init 100 2 blank)))) = true /\
  fst (remove_n 2 (insert_all [10; 20; 30] (snd (remove (init 100 2 blank)))))
    = [20; 30].
Proof. vm_compute. repeat split. Qed.

(** C6 (remove on an empty buffer, amended).  When count() is 0, remove()
    returns the reference left in the slot at the read cursor and the 16-bit
    counter wraps to 65535.  isEmpty() is then false although nothing is
    stored, and freeCount() is capacity + 1 modulo 65536, never the capacity.
    isFull() is true exactly for capacity 65535, where before the call it
    was true exactly for capacity 0: for a capacity from 1 to 65534 it
    returns false as before the call. *)
Theorem remove_on_empty w :
  is_uint16 (size (buffer w)) ->
  count w = 0 ->
  fst (remove w) = slots w (out (buffer w)) /\
  count (snd (remove w)) = 65535 /\
  isEmpty (snd (remove w)) = false /\
  freeCount (snd (remove w)) = u16 (size (buffer w) + 1) /\
  freeCount (snd (remove w)) <> size (buffer w) /\
  isFull w = (size (buffer w) =? 0) /\
  isFull (snd (remove w)) = (size (buffer w) =? 65535) /\
  (1 <= size (buffer w) < 65535 ->
   isFull (snd (remove w)) = false /\ isFull (snd (remove w)) = isFull w).
Proof.
  intros Hn Hc. unfold is_uint16 in Hn.
  rewrite count_eq in Hc.
  assert (Hfree : u16 (size (buffer w) - 65535) = u16 (size (buffer w) + 1)).
  { unfold u16.
    replace (size (buffer w) + 1) with (size (buffer w) - 65535 + 1 * 65536)
      by lia.
    rewrite Z.mod_add by lia. reflexivity. }
  assert (Hbefore : isFull w = (size (buffer w) =? 0)).
  { rewrite isFull_eq, Hc. apply Z.eqb_sym. }
  assert (Hfull : isFull (snd (remove w)) = (size (buffer w) =? 65535)).
  { rewrite isFull_eq, remove_eq. cbv zeta. cbn [snd]. fields. rewrite Hc.
    apply Z.eqb_sym. }
  repeat split.
  - rewrite remove_eq. reflexivity.
  - rewrite count_eq, remove_eq. cbv zeta. cbn [snd]. fields. rewrite Hc.
    reflexivity.
  - rewrite isEmpty_eq, remove_eq. cbv zeta. cbn [snd]. fields. rewrite Hc.
    reflexivity.
  - rewrite freeCount_eq, remove_eq. cbv zeta. cbn [snd]. fields.
    rewrite Hc. exact Hfree.
  - rewrite freeCount_eq, remove_eq. cbv zeta. cbn [snd]. fields.
    rewrite Hc. change (u16 (0 - 1)) with 65535. rewrite Hfree.
    destruct (Z.eq_dec (size (buffer w)) 65535) as [E|E].
    + rewrite E. vm_compute. discriminate.
    + rewrite u16_small by lia. lia.
  - exact Hbefore.
  - exact Hfull.
  - rewrite Hfull. apply Z.eqb_neq. lia.
  - rewrite Hfull, Hbefore.
    transitivity false; [|symmetry]; apply Z.eqb_neq; lia.
Qed.

Lemma remove_on_empty_witness :
  fst (remove (init 100 2 blank)) = 0 /\
  count (snd (remove (init 100 2 blank))) = 65535 /\
  isEmpty (snd (remove (init 100 2 blank))) = false /\
  freeCount (snd (remove (init 100 2 blank))) = 3 /\
  freeCount (snd (remove (init 100 2 blank))) <> 2 /\
  isFull (init 100 2 blank) = false /\
  isFull (snd (remove (init 100 2 blank))) = false /\
  (1 <= 2 < 65535 ->
   isFull (snd (remove (init 100 2 blank))) = false /\
   isFull (snd (remove (init 100 2 blank))) = isFull (init 100 2 blank)).
Proof.
  apply (remove_on_empty (init 100 2 blank)).
  - unfold is_uint16. cbn. lia.
  - reflexivity.
Defined.

(** C7, as stated, fails for capacity 0: right after init no call is
    allowed, and both cursors sit at index 0, which is not below the
    capacity. *)
Lemma cursor_invariant_fails_capacity_0 :
  run (init 100 0 blank) [] = Some (init 100 0 blank, []) /\
  isFull (init 100 0 blank) = true /\
  isEmpty (init 100 0 blank) = true /\
  write_index (init 100 0 blank) = 0 /\
  read_index (init 100 0 blank) = 0 /\
  size (buffer (init 100 0 blank)) = 0 /\
  ~ cursor_invariant (init 100 0 blank).
Proof.
  repeat split.
  unfold cursor_invariant. vm_compute. intros [[_ H] _]. discriminate H.
Qed.

(** C7 (invariant, amended).  In every state reached from init with capacity
    [n] by insert, remove and peek calls that respect the preconditions,
    the capacity is [n], [0 <= count <= capacity], and count equals the
    number of entries inserted minus the number removed; when the capacity
    is at least 1, both cursors lie within [0, capacity). *)
Theorem data_model_invariant dataptr n w0 cs w ds :
  is_uint16 n ->
  run (init dataptr n w0) cs = Some (w, ds) ->
  size (buffer w) = n /\
  counter_invariant cs w /\
  (1 <= n -> cursor_invariant w).
Proof.
  intros Hn Hrun.
  destruct (run_init_rep _ _ _ _ _ _ Hn Hrun)
    as (q & [Hs He Hz Hc Hr Ho Hi Hm] & Happ & Hlen).
  unfold counter_invariant, cursor_invariant. rewrite count_eq, Hz, Hc.
  assert (Hq : Z.of_nat (length (inserted cs)) =
               Z.of_nat (removals cs) + Z.of_nat (length q))
    by (rewrite Happ, length_app, Hlen; lia).
  repeat split; try lia; wrap_cases.
Qed.

Lemma data_model_invariant_witness :
  exists w, size (buffer w) = 2 /\ counter_invariant demo_calls w /\
            (1 <= 2 -> cursor_invariant w).
Proof.
  eexists.
  refine (data_model_invariant 100 2 blank demo_calls _ [10; 20; 30] _ _).
  - unfold is_uint16. lia.
  - vm_compute. reflexivity.
Defined.

(** C8 (init).  After init with a storage array and a capacity [n], on any
    buffer -- fresh or holding entries -- both cursors point at slot 0 of
    that array, the buffer is bound to its [n] slots, count() is 0, isEmpty()
    is true and the capacity is [n]; init writes no slot.  Whatever the
    buffer held before, the remove calls of any later sequence that respects
    the preconditions return only references inserted after this init, in
    insertion order. *)
Theorem init_resets dataptr n w cs w' ds :
  is_uint16 n ->
  run (init dataptr n w) cs = Some (w', ds) ->
  in_ (buffer (init dataptr n w)) = dataptr /\
  out (buffer (init dataptr n w)) = dataptr /\
  start (buffer (init dataptr n w)) = dataptr /\
  end_ (buffer (init dataptr n w)) = dataptr + n /\
  write_index (init dataptr n w) = 0 /\
  read_index (init dataptr n w) = 0 /\
  count (init dataptr n w) = 0 /\
  isEmpty (init dataptr n w) = true /\
  size (buffer (init dataptr n w)) = n /\
  slots (init dataptr n w) = slots w /\
  ds = firstn (removals cs) (inserted cs) /\
  (forall d, In d ds -> In d (inserted cs)).
Proof.
  intros Hn Hrun.
  destruct (run_init_rep _ _ _ _ _ _ Hn Hrun) as (q & _ & Happ & Hlen).
  rewrite init_eq. unfold write_index, read_index. fields.
  repeat split; try lia.
  - rewrite Happ, <- Hlen, firstn_app, Nat.sub_diag, firstn_all. cbn.
    rewrite app_nil_r. reflexivity.
  - intros d Hd. rewrite Happ. apply in_or_app. left. exact Hd.
Qed.

Lemma init_resets_witness :
  let w := insert_all [1; 2] (init 100 2 blank) in
  in_ (buffer (init 100 2 w)) = 100 /\
  out (buffer (init 100 2 w)) = 100 /\
  start (buffer (init 100 2 w)) = 100 /\
  end_ (buffer (init 100 2 w)) = 100 + 2 /\
  write_index (init 100 2 w) = 0 /\
  read_index (init 100 2 w) = 0 /\
  count (init 100 2 w) = 0 /\
  isEmpty (init 100 2 w) = true /\
  size (buffer (init 100 2 w)) = 2 /\
  slots (init 100 2 w) = slots w /\
  [7] = firstn (removals [Insert 7; Remove]) (inserted [Insert 7; Remove]) /\
  (forall d, In d [7] -> In d (inserted [Insert 7; Remove])).
Proof.
  intros w.
  refine (init_resets 100 2 w [Insert 7; Remove] _ [7] _ _).
  - unfold is_uint16. lia.
  - vm_compute. reflexivity.
Defined.

Lemma full_65535_counter :
  size (buffer full_65535) = 65535 /\ sount (buffer full_65535) = 65535.
Proof.
  unfold full_65535.
  destruct (insert_all_buffer (repeat 7 (Z.to_nat 65535)) (init 0 65535 blank))
    as (_ & _ & Hz & _).
  rewrite Hz. split; [reflexivity|].
  rewrite <- count_eq, insert_all_count by (vm_compute; split; congruence).
  rewrite repeat_length, Z2Nat.id by lia. reflexivity.
Qed.

(** C9, as stated, fails for capacity 65535: the buffer filled by 65535
    inserts is full, and one more insert wraps the 16-bit counter, so that
    count() returns 0 and not capacity + 1. *)
Lemma insert_on_full_capacity_65535 :
  isFull full_65535 = true /\
  count full_65535 = size (buffer full_65535) /\
  count (insert 9 full_65535) = 0 /\
  count (insert 9 full_65535) <> size (buffer full_65535) + 1.
Proof.
  destruct full_65535_counter as [Hz Hc].
  rewrite isFull_eq, !count_eq, insert_eq. fields. rewrite Hz, Hc.
  repeat split. vm_compute. discriminate.
Qed.

(** C9 (insert on a full buffer, amended).  When count() equals the
    capacity, insert still increments the 16-bit counter: count() then
    returns capacity + 1 modulo 65536, that is capacity + 1 for a capacity
    below 65535 and 0 for capacity 65535; isFull() returns false and
    freeCount() returns 65535. *)
Theorem insert_on_full w d :
  is_uint16 (size (buffer w)) ->
  isFull w = true ->
  count (insert d w) = u16 (size (buffer w) + 1) /\
  (size (buffer w) < 65535 -> count (insert d w) = size (buffer w) + 1) /\
  (size (buffer w) = 65535 -> count (insert d w) = 0) /\
  isFull (insert d w) = false /\
  freeCount (insert d w) = 65535.
Proof.
  intros Hn Hf. unfold is_uint16 in Hn.
  rewrite isFull_eq in Hf. apply Z.eqb_eq in Hf.
  rewrite isFull_eq, freeCount_eq, count_eq, insert_eq. fields. rewrite Hf.
  destruct (Z.eq_dec (size (buffer w)) 65535) as [E|E].
  - rewrite E. repeat split; try reflexivity; lia.
  - rewrite (u16_small (size (buffer w) + 1)) by lia.
    replace (size (buffer w) - (size (buffer w) + 1)) with (-1) by lia.
    repeat split; try lia; reflexivity.
Qed.

Lemma insert_on_full_witness :
  let w := insert_all [10; 20] (init 100 2 blank) in
  count (insert 30 w) = 3 /\
  (2 < 65535 -> count (insert 30 w) = 2 + 1) /\
  (2 = 65535 -> count (insert 30 w) = 0) /\
  isFull (insert 30 w) = false /\
  freeCount (insert 30 w) = 65535.
Proof.
  intros w.
  apply (insert_on_full w 30).
  - unfold is_uint16. cbn. lia.
  - reflexivity.
Defined.

(** C10 (frame).  In every state, also one where a precondition is
    violated, each of count, freeCount, isEmpty, isFull, insert, remove and
    peek leaves the capacity ([size]) and the binding to the storage array
    ([start], [end]) as they were. *)
Theorem capacity_and_binding_frame w d :
  same_binding w (snd (ringbuffer_get_count w)) /\
  same_binding w (snd (ringbuffer_get_free_count w)) /\
  same_binding w (snd (ringbuffer_is_empty w)) /\
  same_binding w (snd (ringbuffer_is_full w)) /\
  same_binding w (snd (ringbuffer_insert d w)) /\
  same_binding w (snd (ringbuffer_remove w)) /\
  same_binding w (snd (ringbuffer_peek w)).
Proof.
  change (snd (ringbuffer_insert d w)) with (insert d w).
  change (ringbuffer_remove w) with (remove w).
  rewrite insert_eq, remove_eq.
  unfold same_binding. cbn. repeat split.
Qed.

(** ** Further properties of the code *)

(** The queue represented after a checked call sequence is [pending]. *)
Lemma run_init_pending dataptr n w0 cs w ds :
  is_uint16 n -> run (init dataptr n w0) cs = Some (w, ds) ->
  rep dataptr n (pending cs) w /\ inserted cs = ds ++ pending cs /\
  length ds = removals cs.
Proof.
  intros Hn Hrun.
  destruct (run_init_rep _ _ _ _ _ _ Hn Hrun) as (q & Hrep & Happ & Hlen).
  assert (Hq : pending cs = q).
  { unfold pending. rewrite Happ, <- Hlen, skipn_app, Nat.sub_diag, skipn_all.
    reflexivity. }
  rewrite Hq. auto.
Qed.

Lemma rep_isEmpty dataptr n q w :
  rep dataptr n q w -> isEmpty w = match q with [] => true | _ => false end.
Proof.
  intros [Hs He Hz Hc Hr Ho Hi Hm]. rewrite isEmpty_eq, Hc.
  destruct q; [reflexivity|]. apply Z.eqb_neq. cbn [length]. lia.
Qed.

Lemma rep_isFull dataptr n q w :
  rep dataptr n q w -> isFull w = (Z.of_nat (length q) =? n).
Proof.
  intros [Hs He Hz Hc Hr Ho Hi Hm]. rewrite isFull_eq, Hc, Hz. reflexivity.
Qed.

Lemma peek_is_next_remove w : peek w = fst (remove w).
Proof. unfold peek. rewrite peek_eq, remove_eq. reflexivity. Qed.

(** Removing as many references as the queue holds returns the queue. *)
Lemma rep_drain dataptr n :
  is_uint16 n ->
  forall q w, rep dataptr n q w ->
  fst (remove_n (length q) w) = q /\
  rep dataptr n [] (snd (remove_n (length q) w)).
Proof.
  intros Hn. induction q as [|d q IH]; intros w Hrep.
  - cbn. auto.
  - assert (Hne : isEmpty w = false) by (rewrite (rep_isEmpty _ _ _ _ Hrep); reflexivity).
    destruct (rep_remove _ _ _ _ Hn Hrep Hne) as (d' & q' & Heq & Hd & Hq').
    injection Heq as <- <-.
    cbn [length remove_n].
    destruct (remove w) as [x w1]. cbn [fst snd] in Hd, Hq'. subst x.
    destruct (IH _ Hq') as [Hfst Hsnd].
    destruct (remove_n (length q) w1) as [l w2]. cbn [fst snd] in *.
    subst l. auto.
Qed.

(** X1 (peek shows the oldest pending reference).  After a call sequence from
    init that respects the preconditions, if the buffer is not empty then
    fewer references were removed than inserted, and peek() returns the
    earliest inserted reference not yet removed, the one the next remove()
    returns. *)
Theorem peek_oldest_pending dataptr n w0 cs w ds :
  is_uint16 n ->
  run (init dataptr n w0) cs = Some (w, ds) ->
  isEmpty w = false ->
  (removals cs < length (inserted cs))%nat /\
  peek w = nth (removals cs) (inserted cs) 0 /\
  fst (remove w) = nth (removals cs) (inserted cs) 0.
Proof.
  intros Hn Hrun Hne.
  destruct (run_init_pending _ _ _ _ _ _ Hn Hrun) as (Hrep & Happ & Hlen).
  destruct (rep_remove _ _ _ _ Hn Hrep Hne) as (d & q & Hq & Hd & _).
  rewrite peek_is_next_remove, Hd, Happ, Hq, <- Hlen.
  rewrite app_nth2, Nat.sub_diag, length_app by lia. cbn [nth length].
  repeat split. lia.
Qed.

Lemma peek_oldest_pending_witness :
  (removals demo_prefix <
   length (inserted demo_prefix))%nat /\
  peek (insert 30 (snd (remove (insert 20 (insert 10 (init 100 2 blank)))))) =
    nth (removals demo_prefix)
        (inserted demo_prefix) 0 /\
  fst (remove (insert 30 (snd (remove (insert 20 (insert 10
         (init 100 2 blank))))))) =
    nth (removals demo_prefix)
        (inserted demo_prefix) 0.
Proof.
  apply (peek_oldest_pending 100 2 blank demo_prefix _ [10]).
  - unfold is_uint16. lia.
  - reflexivity.
  - reflexivity.
Defined.

(** X2 (cursor arithmetic).  After a call sequence from init with capacity
    [n >= 1] that respects the preconditions, the write cursor is the read
    cursor advanced by count() slots modulo the capacity; the two cursors
    coincide exactly when the buffer is empty or full. *)
Theorem cursor_relation dataptr n w0 cs w ds :
  is_uint16 n -> 1 <= n ->
  run (init dataptr n w0) cs = Some (w, ds) ->
  write_index w = (read_index w + count w) mod n /\
  (in_ (buffer w) = out (buffer w) <-> count w = 0 \/ count w = n).
Proof.
  intros Hn H1 Hrun.
  destruct (run_init_rep _ _ _ _ _ _ Hn Hrun)
    as (q & [Hs He Hz Hc Hr Ho Hi Hm] & _).
  rewrite count_eq, Hc. split.
  - rewrite Hi. unfold wrap.
    destruct (Z.ltb_spec (read_index w + Z.of_nat (length q)) n).
    + symmetry. apply Z.mod_small. lia.
    + apply (Z.mod_unique _ _ 1); lia.
  - wrap_cases.
Qed.

Lemma cursor_relation_witness :
  exists w,
    write_index w = (read_index w + count w) mod 2 /\
    (in_ (buffer w) = out (buffer w) <-> count w = 0 \/ count w = 2).
Proof.
  eexists.
  refine (cursor_relation 100 2 blank demo_prefix _ [10] _ _ _).
  - unfold is_uint16. lia.
  - lia.
  - vm_compute. reflexivity.
Defined.

(** X3 (draining).  After a call sequence from init that respects the
    preconditions, count() removes in a row return exactly the references
    inserted and not yet removed, oldest first, so that every inserted
    reference has been returned once and in order; the buffer is then
    empty. *)
Theorem drain_returns_pending dataptr n w0 cs w ds :
  is_uint16 n ->
  run (init dataptr n w0) cs = Some (w, ds) ->
  fst (remove_n (Z.to_nat (count w)) w) = pending cs /\
  ds ++ fst (remove_n (Z.to_nat (count w)) w) = inserted cs /\
  count (snd (remove_n (Z.to_nat (count w)) w)) = 0 /\
  isEmpty (snd (remove_n (Z.to_nat (count w)) w)) = true.
Proof.
  intros Hn Hrun.
  destruct (run_init_pending _ _ _ _ _ _ Hn Hrun) as (Hrep & Happ & Hlen).
  rewrite count_eq, (rep_count _ _ _ _ Hrep), Nat2Z.id.
  destruct (rep_drain _ _ Hn _ _ Hrep) as [Hfst Hemp].
  rewrite Hfst, (rep_isEmpty _ _ _ _ Hemp), count_eq, (rep_count _ _ _ _ Hemp).
  auto.
Qed.

Lemma drain_returns_pending_witness :
  exists w,
    fst (remove_n (Z.to_nat (count w)) w) =
      pending demo_prefix /\
    [10] ++ fst (remove_n (Z.to_nat (count w)) w) =
      inserted demo_prefix /\
    count (snd (remove_n (Z.to_nat (count w)) w)) = 0 /\
    isEmpty (snd (remove_n (Z.to_nat (count w)) w)) = true.
Proof.
  eexists.
  refine (drain_returns_pending 100 2 blank demo_prefix _ [10] _ _).
  - unfold is_uint16. lia.
  - vm_compute. reflexivity.
Defined.

Lemma u16_inc_dec c : u16 (u16 (c + 1) - 1) = u16 c.
Proof.
  unfold u16. rewrite Zminus_mod_idemp_l. f_equal. lia.
Qed.

Lemma u16_dec_inc c : u16 (u16 (c - 1) + 1) = u16 c.
Proof.
  unfold u16. rewrite Zplus_mod_idemp_l. f_equal. lia.
Qed.

(** X4 (producer and consumer commute).  When the two cursors point at
    different slots, an insert followed by a remove returns the same
    reference and leaves the same state -- cursors, counter, slots and
    console -- as the remove followed by the insert. *)
Theorem insert_remove_commute w d :
  in_ (buffer w) <> out (buffer w) ->
  remove (insert d w) = (fst (remove w), insert d (snd (remove w))).
Proof.
  intros Hne. destruct w as [[i o s e z c] m l]. fields.
  rewrite (remove_eq (insert _ _)), (remove_eq (mk_world _ _ _)).
  cbv zeta. cbn [fst snd]. rewrite !insert_eq. cbv zeta. fields.
  unfold next. fields.
  rewrite u16_inc_dec, u16_dec_inc.
  rewrite mem_store_other by congruence.
  reflexivity.
Qed.

Lemma insert_remove_commute_witness :
  remove (insert 30 (insert 10 (init 100 3 blank))) =
  (fst (remove (insert 10 (init 100 3 blank))),
   insert 30 (snd (remove (insert 10 (init 100 3 blank))))).
Proof.
  apply (insert_remove_commute (insert 10 (init 100 3 blank)) 30).
  vm_compute. discriminate.
Defined.

(** An insert on a full buffer followed by a remove: the new reference comes
    out at once, the oldest one is gone, and the new one is pending again. *)
Lemma rep_overflow dataptr n d0 q w d :
  is_uint16 n -> rep dataptr n (d0 :: q) w ->
  Z.of_nat (length (d0 :: q)) = n ->
  fst (remove (insert d w)) = d /\
  rep dataptr n (q ++ [d]) (snd (remove (insert d w))).
Proof.
  intros Hn [Hs He Hz Hc Hr Ho Hi Hm] Hfull.
  rewrite remove_eq, insert_eq. cbv zeta. cbn [fst snd].
  destruct w as [[i o s e z c] m l].
  unfold read_index, write_index, is_uint16 in *. fields. subst s e z c.
  assert (Hlen : Z.of_nat (length (d0 :: q)) = Z.of_nat (length q) + 1)
    by (cbn [length]; lia).
  assert (Hlen' : Z.of_nat (length (q ++ [d])) = Z.of_nat (length q) + 1)
    by (rewrite length_app; cbn [length]; lia).
  rewrite Hlen in *.
  assert (Hio : i = o) by wrap_cases. subst i.
  split; [apply mem_store_same|].
  constructor; unfold read_index, write_index; fields; try reflexivity.
  - rewrite u16_inc_dec, Hlen'. apply u16_small. lia.
  - lia.
  - wrap_cases.
  - rewrite Hlen'. wrap_cases.
  - intros j Hj. rewrite length_app in Hj. cbn [length] in Hj.
    destruct (Nat.eq_dec j (length q)) as [->|Hne].
    + rewrite nth_middle.
      replace (dataptr + wrap n (next
                 (mk_ringbuffer (next (mk_ringbuffer o o dataptr (dataptr + n)
                                  n (Z.of_nat (length q) + 1)) o)
                    o dataptr (dataptr + n) n
                    (u16 (Z.of_nat (length q) + 1 + 1))) o
                 - dataptr + Z.of_nat (length q)))
        with o by wrap_cases.
      apply mem_store_same.
    + rewrite app_nth1 by lia.
      change (nth j q 0) with (nth (S j) (d0 :: q) 0).
      rewrite <- (Hm (S j)) by (cbn [length]; lia).
      assert (Z.of_nat (S j) = Z.of_nat j + 1) by lia.
      assert (Z.of_nat j < Z.of_nat (length q)) by lia.
      rewrite mem_store_other by wrap_cases.
      f_equal. wrap_cases.
Qed.

(** X5 (overflow).  After a call sequence from init with capacity [n >= 1]
    that respects the preconditions and leaves the buffer full, an insert of
    [d] made without checking isFull() overwrites the oldest pending
    reference: the following removes return [d] first, then the other
    pending references in order, then [d] a second time; the oldest pending
    reference is never returned. *)
Theorem overflow_loses_oldest_repeats_newest dataptr n w0 cs w ds d :
  is_uint16 n -> 1 <= n ->
  run (init dataptr n w0) cs = Some (w, ds) ->
  isFull w = true ->
  Z.of_nat (length (pending cs)) = n /\
  fst (remove_n (S (length (pending cs))) (insert d w)) =
    d :: tl (pending cs) ++ [d].
Proof.
  intros Hn H1 Hrun Hfull.
  destruct (run_init_pending _ _ _ _ _ _ Hn Hrun) as (Hrep & _ & _).
  rewrite (rep_isFull _ _ _ _ Hrep) in Hfull. apply Z.eqb_eq in Hfull.
  split; [exact Hfull|].
  destruct (pending cs) as [|d0 q]; [cbn in Hfull; lia|].
  destruct (rep_overflow _ _ _ _ _ d Hn Hrep Hfull) as [Hd Hrep'].
  cbn [remove_n tl].
  destruct (remove (insert d w)) as [x w2]. cbn [fst snd] in Hd, Hrep'. subst x.
  destruct (rep_drain _ _ Hn _ _ Hrep') as [Hfst _].
  replace (length (d0 :: q)) with (length (q ++ [d]))
    by (rewrite length_app; cbn [length]; lia).
  destruct (remove_n (length (q ++ [d])) w2) as [l w3]. cbn [fst] in *.
  subst l. reflexivity.
Qed.

Lemma overflow_loses_oldest_repeats_newest_witness :
  Z.of_nat (length (pending demo_prefix)) = 2 /\
  fst (remove_n (S (length (pending demo_prefix)))
         (insert 40 (insert 30 (snd (remove (insert 20 (insert 10
            (init 100 2 blank)))))))) =
    40 :: tl (pending demo_prefix) ++ [40].
Proof.
  apply (overflow_loses_oldest_repeats_newest 100 2 blank demo_prefix _ [10] 40).
  - unfold is_uint16. lia.
  - lia.
  - reflexivity.
  - reflexivity.
Defined.

(** A remove on an empty buffer followed by an insert leaves an empty
    buffer, both cursors one slot further. *)
Lemma rep_underflow dataptr n w d :
  is_uint16 n -> 1 <= n -> rep dataptr n [] w ->
  rep dataptr n [] (insert d (snd (remove w))).
Proof.
  intros Hn H1 [Hs He Hz Hc Hr Ho Hi Hm].
  rewrite remove_eq. cbv zeta. cbn [snd]. rewrite insert_eq. cbv zeta.
  destruct w as [[i o s e z c] m l].
  unfold read_index, write_index, is_uint16 in *. fields. subst s e z c.
  cbn [length] in *. change (Z.of_nat 0) with 0 in *.
  assert (Hio : i = o) by wrap_cases. subst i.
  constructor; unfold read_index, write_index; fields; cbn [length];
    try reflexivity.
  - lia.
  - wrap_cases.
  - change (Z.of_nat 0) with 0. wrap_cases.
  - intros j Hj. lia.
Qed.

(** X6 (underflow).  After a call sequence from init with capacity [n >= 1]
    that respects the preconditions and leaves the buffer empty, a remove
    made without checking isEmpty() followed by an insert of [d] leaves a
    buffer that reports empty, with both cursors on the same slot: [d] is
    lost, for the removes of any later sequence that respects the
    preconditions return only the references that sequence inserts. *)
Theorem underflow_then_insert_loses_entry dataptr n w0 cs w ds d cs' w' ds' :
  is_uint16 n -> 1 <= n ->
  run (init dataptr n w0) cs = Some (w, ds) ->
  isEmpty w = true ->
  run (insert d (snd (remove w))) cs' = Some (w', ds') ->
  count (insert d (snd (remove w))) = 0 /\
  isEmpty (insert d (snd (remove w))) = true /\
  in_ (buffer (insert d (snd (remove w)))) =
    out (buffer (insert d (snd (remove w)))) /\
  ds' = firstn (removals cs') (inserted cs').
Proof.
  intros Hn H1 Hrun Hemp Hrun'.
  destruct (run_init_pending _ _ _ _ _ _ Hn Hrun) as (Hrep & _ & _).
  rewrite (rep_isEmpty _ _ _ _ Hrep) in Hemp.
  destruct (pending cs); [|discriminate].
  pose proof (rep_underflow _ _ _ d Hn H1 Hrep) as Hrep2.
  destruct (run_rep _ _ Hn _ _ _ _ _ Hrep2 Hrun') as (q' & _ & Happ & Hlen).
  cbn [app] in Happ.
  rewrite (rep_isEmpty _ _ _ _ Hrep2), count_eq, (rep_count _ _ _ _ Hrep2).
  repeat split.
  - destruct Hrep2 as [Hs He Hz Hc Hr Ho Hi Hm].
    cbn [length] in Hi. change (Z.of_nat 0) with 0 in Hi.
    unfold is_uint16 in Hn. wrap_cases.
  - rewrite Happ, <- Hlen, firstn_app, Nat.sub_diag, firstn_all. cbn.
    rewrite app_nil_r. reflexivity.
Qed.

Lemma underflow_then_insert_loses_entry_witness :
  count (insert 7 (snd (remove (init 100 2 blank)))) = 0 /\
  isEmpty (insert 7 (snd (remove (init 100 2 blank)))) = true /\
  in_ (buffer (insert 7 (snd (remove (init 100 2 blank))))) =
    out (buffer (insert 7 (snd (remove (init 100 2 blank))))) /\
  [10; 20] = firstn (removals [Insert 10; Insert 20; Remove; Remove])
                     (inserted [Insert 10; Insert 20; Remove; Remove]).
Proof.
  refine (underflow_then_insert_loses_entry 100 2 blank [] _ [] 7
            [Insert 10; Insert 20; Remove; Remove] _ [10; 20] _ _ _ _ _).
  - unfold is_uint16. lia.
  - lia.
  - reflexivity.
  - reflexivity.
  - vm_compute. reflexivity.
Defined.

(** ** Call sequences that ignore the preconditions *)

Lemma u16_range z : is_uint16 (u16 z).
Proof. unfold is_uint16, u16. apply Z.mod_pos_bound. lia. Qed.

Lemma run_unchecked_count cs : forall w,
  is_uint16 (sount (buffer w)) ->
  sount (buffer (fst (run_unchecked w cs))) =
  u16 (sount (buffer w) + Z.of_nat (length (inserted cs))
       - Z.of_nat (removals cs)).
Proof.
  induction cs as [|c cs IH]; intros w Hc.
  - cbn. rewrite Z.add_0_r, Z.sub_0_r. symmetry. apply u16_small. exact Hc.
  - destruct c as [d| |]; cbn [run_unchecked inserted removals length].
    + rewrite IH by (rewrite insert_eq; fields; apply u16_range).
      rewrite insert_eq. fields. unfold u16.
      rewrite <- Zminus_mod_idemp_l, <- Zplus_mod_idemp_l, Z.mod_mod by lia.
      rewrite Zplus_mod_idemp_l, Zminus_mod_idemp_l. f_equal. lia.
    + specialize (IH (snd (remove w))).
      destruct (remove w) as [x w1] eqn:Hrem.
      assert (Hw1 : w1 = snd (remove w)) by (rewrite Hrem; reflexivity).
      destruct (run_unchecked w1 cs) as [w2 l] eqn:Hrun. cbn [fst snd] in *.
      subst w1. rewrite Hrun in IH. cbn [fst] in IH.
      rewrite IH by (rewrite remove_eq; cbn [snd]; fields; apply u16_range).
      rewrite remove_eq. cbn [snd]. fields. unfold u16.
      rewrite <- Zminus_mod_idemp_l, <- Zplus_mod_idemp_l, Z.mod_mod by lia.
      rewrite Zplus_mod_idemp_l, Zminus_mod_idemp_l. f_equal. lia.
    + rewrite peek_eq. cbn [snd]. apply IH. exact Hc.
Qed.

(** X7 (the counter under any use).  After init and any sequence of insert,
    remove and peek calls, made with or without checks, count() is the number
    of inserts minus the number of removes, modulo 65536. *)
Theorem count_is_inserts_minus_removes dataptr n w0 cs :
  count (fst (run_unchecked (init dataptr n w0) cs)) =
  u16 (Z.of_nat (length (inserted cs)) - Z.of_nat (removals cs)).
Proof.
  rewrite count_eq, run_unchecked_count.
  - rewrite init_eq. reflexivity.
  - rewrite init_eq. unfold is_uint16. cbn. lia.
Qed.

Lemma next_index dataptr n b i :
  1 <= n -> start b = dataptr -> end_ b = dataptr + n -> 0 <= i < n ->
  next b (dataptr + i) = dataptr + (i + 1) mod n.
Proof.
  intros H1 Hs He Hi. unfold next. rewrite Hs, He.
  destruct (Z.eqb_spec (dataptr + i + 1) (dataptr + n)) as [E|E].
  - replace (i + 1) with n by lia. rewrite Z.mod_same by lia. lia.
  - rewrite Z.mod_small by lia. lia.
Qed.

Lemma insert_indices dataptr n w d :
  1 <= n -> start (buffer w) = dataptr -> end_ (buffer w) = dataptr + n ->
  0 <= write_index w < n ->
  start (buffer (insert d w)) = dataptr /\
  end_ (buffer (insert d w)) = dataptr + n /\
  write_index (insert d w) = (write_index w + 1) mod n /\
  read_index (insert d w) = read_index w /\
  (forall a, ~ dataptr <= a < dataptr + n ->
             slots (insert d w) a = slots w a) /\
  console (insert d w) =
    console w ++ [(dataptr + write_index w, dataptr + n)].
Proof.
  intros H1 Hs He Hi.
  assert (Hin : in_ (buffer w) = dataptr + write_index w)
    by (unfold write_index; lia).
  unfold write_index at 1, read_index. rewrite insert_eq. fields.
  rewrite Hs, He. repeat split.
  - rewrite Hin at 1. rewrite (next_index dataptr n) by assumption. lia.
  - intros a Ha. apply mem_store_other. lia.
  - rewrite Hin. reflexivity.
Qed.

Lemma remove_indices dataptr n w :
  1 <= n -> start (buffer w) = dataptr -> end_ (buffer w) = dataptr + n ->
  0 <= read_index w < n ->
  start (buffer (snd (remove w))) = dataptr /\
  end_ (buffer (snd (remove w))) = dataptr + n /\
  write_index (snd (remove w)) = write_index w /\
  read_index (snd (remove w)) = (read_index w + 1) mod n /\
  slots (snd (remove w)) = slots w /\
  console (snd (remove w)) = console w.
Proof.
  intros H1 Hs He Ho.
  assert (Hout : out (buffer w) = dataptr + read_index w)
    by (unfold read_index; lia).
  unfold read_index at 1, write_index. rewrite remove_eq. cbn [snd]. fields.
  rewrite Hs. repeat split; try assumption.
  rewrite Hout at 1. rewrite (next_index dataptr n) by assumption. lia.
Qed.

(** The state after any call sequence on a buffer whose cursors are inside
    its array: the binding is kept, each cursor has advanced by the number of
    its calls modulo the capacity, no slot outside the array is written, and
    each insert has printed its cursor and the end of the array. *)
Lemma run_unchecked_cursors dataptr n :
  1 <= n ->
  forall cs w,
    start (buffer w) = dataptr -> end_ (buffer w) = dataptr + n ->
    0 <= write_index w < n -> 0 <= read_index w < n ->
    start (buffer (fst (run_unchecked w cs))) = dataptr /\
    end_ (buffer (fst (run_unchecked w cs))) = dataptr + n /\
    write_index (fst (run_unchecked w cs)) =
      (write_index w + Z.of_nat (length (inserted cs))) mod n /\
    read_index (fst (run_unchecked w cs)) =
      (read_index w + Z.of_nat (removals cs)) mod n /\
    (forall a, ~ dataptr <= a < dataptr + n ->
               slots (fst (run_unchecked w cs)) a = slots w a) /\
    console (fst (run_unchecked w cs)) =
      console w ++
      map (fun k => (dataptr + (write_index w + Z.of_nat k) mod n, dataptr + n))
          (seq 0 (length (inserted cs))).
Proof.
  intros H1. induction cs as [|c cs IH]; intros w Hs He Hi Ho.
  - cbn. rewrite !Z.add_0_r, !Z.mod_small, app_nil_r by lia.
    repeat split; auto.
  - destruct c as [d| |]; cbn [run_unchecked inserted removals length].
    + destruct (insert_indices dataptr n w d H1 Hs He Hi)
        as (Hs1 & He1 & Hi1 & Ho1 & Hm1 & Hl1).
      assert (Hb : 0 <= (write_index w + 1) mod n < n)
        by (apply Z.mod_pos_bound; lia).
      destruct (IH (insert d w) Hs1 He1) as (Hs' & He' & Hi' & Ho' & Hm' & Hl').
      { rewrite Hi1. exact Hb. }
      { rewrite Ho1. exact Ho. }
      rewrite Hs', He', Hi', Ho', Hl', Hi1, Ho1, Hl1.
      repeat split.
      * rewrite Zplus_mod_idemp_l. f_equal. lia.
      * intros a Ha. rewrite Hm' by exact Ha. apply Hm1. exact Ha.
      * rewrite <- app_assoc. f_equal.
        cbn [seq map app]. change (Z.of_nat 0) with 0.
        rewrite Z.add_0_r, (Z.mod_small (write_index w)) by lia.
        f_equal.
        rewrite <- seq_shift, map_map. apply map_ext. intros k.
        rewrite Zplus_mod_idemp_l.
        replace (write_index w + 1 + Z.of_nat k)
          with (write_index w + Z.of_nat (S k)) by lia.
        reflexivity.
    + destruct (remove_indices dataptr n w H1 Hs He Ho)
        as (Hs1 & He1 & Hi1 & Ho1 & Hm1 & Hl1).
      assert (Hb : 0 <= (read_index w + 1) mod n < n)
        by (apply Z.mod_pos_bound; lia).
      destruct (IH (snd (remove w)) Hs1 He1) as (Hs' & He' & Hi' & Ho' & Hm' & Hl').
      { rewrite Hi1. exact Hi. }
      { rewrite Ho1. exact Hb. }
      destruct (remove w) as [x w1]. cbn [snd] in *.
      destruct (run_unchecked w1 cs) as [w2 l]. cbn [fst] in *.
      rewrite Hs', He', Hi', Ho', Hl', Hi1, Ho1, Hl1.
      repeat split.
      * rewrite Zplus_mod_idemp_l. f_equal. lia.
      * intros a Ha. rewrite Hm' by exact Ha. rewrite Hm1. reflexivity.
    + rewrite peek_eq. cbn [snd]. apply IH; assumption.
Qed.

Lemma init_cursors dataptr n w0 :
  1 <= n ->
  start (buffer (init dataptr n w0)) = dataptr /\
  end_ (buffer (init dataptr n w0)) = dataptr + n /\
  write_index (init dataptr n w0) = 0 /\
  read_index (init dataptr n w0) = 0.
Proof.
  intros H1. unfold write_index, read_index. rewrite init_eq. fields.
  repeat split; lia.
Qed.

(** X8 (wraparound).  After init with capacity [n >= 1] and any sequence of
    insert, remove and peek calls, made with or without checks, the write
    cursor is at slot (number of inserts) mod [n] and the read cursor at slot
    (number of removes) mod [n]; both point into the array. *)
Theorem cursors_cycle dataptr n w0 cs :
  1 <= n ->
  write_index (fst (run_unchecked (init dataptr n w0) cs)) =
    Z.of_nat (length (inserted cs)) mod n /\
  read_index (fst (run_unchecked (init dataptr n w0) cs)) =
    Z.of_nat (removals cs) mod n /\
  in_array (fst (run_unchecked (init dataptr n w0) cs)).
Proof.
  intros H1.
  destruct (init_cursors dataptr n w0 H1) as (Hs & He & Hi & Ho).
  destruct (run_unchecked_cursors dataptr n H1 cs (init dataptr n w0) Hs He)
    as (Hs' & He' & Hi' & Ho' & _); try lia.
  rewrite Hi in Hi'. rewrite Ho in Ho'. cbn [Z.add] in Hi', Ho'.
  split; [exact Hi'|]. split; [exact Ho'|].
  pose proof (Z.mod_pos_bound (Z.of_nat (length (inserted cs))) n ltac:(lia)).
  pose proof (Z.mod_pos_bound (Z.of_nat (removals cs)) n ltac:(lia)).
  unfold in_array, write_index, read_index in *. lia.
Qed.

Lemma cursors_cycle_witness :
  write_index (fst (run_unchecked (init 100 2 blank) demo_calls)) =
    Z.of_nat (length (inserted demo_calls)) mod 2 /\
  read_index (fst (run_unchecked (init 100 2 blank) demo_calls)) =
    Z.of_nat (removals demo_calls) mod 2 /\
  in_array (fst (run_unchecked (init 100 2 blank) demo_calls)).
Proof.
  apply (cursors_cycle 100 2 blank demo_calls). lia.
Defined.

(** X9 (no access outside the array).  After init with capacity [n >= 1] and
    any sequence of insert, remove and peek calls, made with or without
    checks, every slot outside the [n] slots given to init holds what it
    held before. *)
Theorem slots_outside_array_untouched dataptr n w0 cs a :
  1 <= n ->
  ~ dataptr <= a < dataptr + n ->
  slots (fst (run_unchecked (init dataptr n w0) cs)) a = slots w0 a.
Proof.
  intros H1 Ha.
  destruct (init_cursors dataptr n w0 H1) as (Hs & He & Hi & Ho).
  destruct (run_unchecked_cursors dataptr n H1 cs (init dataptr n w0) Hs He)
    as (_ & _ & _ & _ & Hm & _); try lia.
  rewrite Hm by exact Ha. rewrite init_eq. reflexivity.
Qed.

Lemma slots_outside_array_untouched_witness :
  slots (fst (run_unchecked (init 100 2 blank)
                 [Insert 1; Insert 2; Insert 3; Remove])) 102 =
  slots blank 102.
Proof.
  apply (slots_outside_array_untouched 100 2 blank
           [Insert 1; Insert 2; Insert 3; Remove] 102); lia.
Defined.

(** X10 (what insert prints).  After init with capacity [n >= 1] and any
    sequence of calls, made with or without checks, the console holds, after
    what it held before, one line per insert and nothing else: the k-th
    insert (from 0) has printed the address of slot k mod [n] and the address
    of the end of the array. *)
Theorem console_after_calls dataptr n w0 cs :
  1 <= n ->
  console (fst (run_unchecked (init dataptr n w0) cs)) =
  console w0 ++
  map (fun k => (dataptr + Z.of_nat k mod n, dataptr + n))
      (seq 0 (length (inserted cs))).
Proof.
  intros H1.
  destruct (init_cursors dataptr n w0 H1) as (Hs & He & Hi & Ho).
  destruct (run_unchecked_cursors dataptr n H1 cs (init dataptr n w0) Hs He)
    as (_ & _ & _ & _ & _ & Hl); try lia.
  rewrite Hl, Hi. rewrite init_eq. reflexivity.
Qed.

Lemma console_after_calls_witness :
  console (fst (run_unchecked (init 100 2 blank) demo_calls)) =
  console blank ++
  map (fun k => (100 + Z.of_nat k mod 2, 100 + 2))
      (seq 0 (length (inserted demo_calls))).
Proof.
  apply (console_after_calls 100 2 blank demo_calls). lia.
Defined.

(** A checked call sequence that succeeds is the unchecked sequence. *)
Lemma run_is_run_unchecked cs : forall w w' ds,
  run w cs = Some (w', ds) -> run_unchecked w cs = (w', ds).
Proof.
  induction cs as [|c cs IH]; intros w w' ds Hrun.
  - cbn in *. congruence.
  - destruct c as [d| |]; cbn [run run_unchecked] in *.
    + destruct (isFull w); [discriminate|]. apply IH. exact Hrun.
    + destruct (isEmpty w); [discriminate|].
      destruct (remove w) as [x w1].
      destruct (run w1 cs) as [[w2 l]|] eqn:E; [|discriminate].
      rewrite (IH _ _ _ E). congruence.
    + apply IH. exact Hrun.
Qed.

Lemma run_capacity_0 dataptr cs : forall w w' ds,
  rep dataptr 0 [] w -> run w cs = Some (w', ds) ->
  inserted cs = [] /\ removals cs = O /\ ds = [].
Proof.
  induction cs as [|c cs IH]; intros w w' ds Hrep Hrun.
  - cbn in *. inversion Hrun. auto.
  - destruct c as [d| |]; cbn [run inserted removals] in *.
    + rewrite (rep_isFull _ _ _ _ Hrep) in Hrun. cbn in Hrun. discriminate.
    + rewrite (rep_isEmpty _ _ _ _ Hrep) in Hrun. discriminate.
    + rewrite peek_eq in Hrun. cbn [snd] in Hrun. eauto.
Qed.

(** X11 (capacity 0).  A buffer initialized with capacity 0 reports both
    empty and full, so a call sequence that respects the preconditions
    contains no insert and no remove, and returns nothing. *)
Theorem capacity_0_accepts_nothing dataptr w0 cs w ds :
  run (init dataptr 0 w0) cs = Some (w, ds) ->
  isEmpty (init dataptr 0 w0) = true /\
  isFull (init dataptr 0 w0) = true /\
  inserted cs = [] /\ removals cs = O /\ ds = [].
Proof.
  intros Hrun.
  split; [reflexivity|]. split; [reflexivity|].
  apply (run_capacity_0 dataptr cs (init dataptr 0 w0) w ds);
    [apply rep_init; lia | exact Hrun].
Qed.

Lemma capacity_0_accepts_nothing_witness :
  isEmpty (init 100 0 blank) = true /\
  isFull (init 100 0 blank) = true /\
  inserted [Peek; Peek] = [] /\ removals [Peek; Peek] = O /\
  @nil ptr = [].
Proof.
  refine (capacity_0_accepts_nothing 100 blank [Peek; Peek] _ [] _).
  reflexivity.
Defined.
